(** * Forward kinematics of the four-joint robot arm

    A shallow embedding of [robot3D_basic_solution.py]: the rotation
    builder [RotationMatrix], the homogeneous frame builder
    [getLocalFrameMatrix], the chain solver [forward_kinematics] and the
    computation unrolled in [main].

    numpy's float64 arrays are modelled over the real numbers: a 2-D array
    is the list of its rows, a 1-D array a list.  Python exceptions are the
    constructors of [exn]; a function that can raise returns a [result]. *)

From Stdlib Require Import Reals String List Bool Arith ZArith Lia Lra.
Import ListNotations.

Open Scope R_scope.

(** ** Exceptions and the error monad *)

Inductive exn : Type :=
| UnboundLocalError   (* a local variable read before any assignment *)
| IndexError          (* a sequence index out of range *)
| ValueError.         (* numpy: operand shapes do not match *)

Inductive result (A : Type) : Type :=
| OK (a : A)
| Raise (e : exn).

Arguments OK {A} a.
Arguments Raise {A} e.

Definition bind {A B : Type} (m : result A) (k : A -> result B) : result B :=
  match m with
  | OK a => k a
  | Raise e => Raise e
  end.

Notation "x <- m ;; k" := (bind m (fun x => k))
  (at level 61, m at next level, right associativity).

(** ** numpy arrays *)

Module np.

(** A 1-D array. *)
Definition vector := list R.

(** A 2-D array, row by row.  numpy arrays are rectangular: every row has
    the length of the first one. *)
Definition ndarray := list (list R).

Definition nrows (m : ndarray) : nat := length m.
Definition ncols (m : ndarray) : nat := length (hd [] m).
Definition shape (m : ndarray) : nat * nat := (nrows m, ncols m).

(** [rectangular r c m]: [m] is an array of shape [(r, c)]. *)
Definition rectangular (r c : nat) (m : ndarray) : Prop :=
  length m = r /\ Forall (fun row => length row = c) m.

(** [np.zeros((r, c))]. *)
Definition zeros (r c : nat) : ndarray := repeat (repeat 0 c) r.

(** [seq[i]] for a non-negative index [i]. *)
Definition getitem (v : vector) (i : nat) : result R :=
  match nth_error v i with
  | Some x => OK x
  | None => Raise IndexError
  end.

(** Column [j] of an array, as a 1-D array. *)
Definition column (j : nat) (m : ndarray) : vector :=
  map (fun row => nth j row 0) m.

Fixpoint dot (u v : vector) : R :=
  match u, v with
  | x :: u', y :: v' => x * y + dot u' v'
  | _, _ => 0
  end.

(** [a @ b] on 2-D arrays: the inner dimensions must agree. *)
Definition matmul (a b : ndarray) : result ndarray :=
  if (ncols a =? nrows b)%nat
  then OK (map (fun row => map (fun j => dot row (column j b))
                               (seq 0 (ncols b))) a)
  else Raise ValueError.

(** Concatenation along the last axis (blocks side by side): the blocks
    must have the same number of rows. *)
Definition hstack (a b : ndarray) : result ndarray :=
  if (nrows a =? nrows b)%nat
  then OK (map (fun p => fst p ++ snd p) (combine a b))
  else Raise ValueError.

(** Concatenation along the first axis (blocks on top of each other): the
    blocks must have the same number of columns. *)
Definition vstack (a b : ndarray) : result ndarray :=
  if (ncols a =? ncols b)%nat
  then OK (a ++ b)
  else Raise ValueError.

(** [np.block([[a, b], [c, d]])]: each inner list is joined along the last
    axis, the two results along the first. *)
Definition block (a b c d : ndarray) : result ndarray :=
  top <- hstack a b ;;
  bottom <- hstack c d ;;
  vstack top bottom.

(** [m[:n]]: the first [n] rows. *)
Definition take_rows (n : nat) (m : ndarray) : ndarray := firstn n m.

(** [m.flatten()]: row-major order. *)
Definition flatten (m : ndarray) : vector := concat m.

(** The transpose, the identity and the 3x3 determinant: the notions the
    properties of a rotation are stated with. *)
Definition transpose (m : ndarray) : ndarray :=
  map (fun j => column j m) (seq 0 (ncols m)).

Definition eye (n : nat) : ndarray :=
  map (fun i => map (fun j => if (i =? j)%nat then 1 else 0) (seq 0 n))
      (seq 0 n).

Definition entry (m : ndarray) (i j : nat) : R := nth j (nth i m []) 0.

Definition det3 (m : ndarray) : R :=
  entry m 0 0 * (entry m 1 1 * entry m 2 2 - entry m 1 2 * entry m 2 1)
  - entry m 0 1 * (entry m 1 0 * entry m 2 2 - entry m 1 2 * entry m 2 0)
  + entry m 0 2 * (entry m 1 0 * entry m 2 1 - entry m 1 1 * entry m 2 0).

End np.

Notation "a @ b" := (np.matmul a b) (at level 40, left associativity).

(** ** The rotation builder *)

(** [RotationMatrix(theta, axis_name)].  The local [rotation_matrix] is
    unbound until one of the branches assigns it, which [None] stands for;
    the first [if] is followed by a separate [if]/[elif], as in the source.
    Reading the unbound local at [return] raises [UnboundLocalError]. *)
Definition RotationMatrix (theta : R) (axis_name : string)
  : result np.ndarray :=
  let c := cos (theta * PI / 180) in
  let s := sin (theta * PI / 180) in
  let rotation_matrix : option np.ndarray := None in
  let rotation_matrix :=
    if (axis_name =? "x")%string
    then Some [[1; 0;  0];
               [0; c; -s];
               [0; s;  c]]
    else rotation_matrix in
  let rotation_matrix :=
    if (axis_name =? "y")%string
    then Some [[ c; 0; s];
               [ 0; 1; 0];
               [-s; 0; c]]
    else if (axis_name =? "z")%string
    then Some [[c; -s; 0];
               [s;  c; 0];
               [0;  0; 1]]
    else rotation_matrix in
  match rotation_matrix with
  | Some m => OK m
  | None => Raise UnboundLocalError
  end.

(** ** The homogeneous frame builder *)

(** [getLocalFrameMatrix(R_ij, t_ij)]: the scalar [1] of the block list is
    the 1x1 array [[1]]. *)
Definition getLocalFrameMatrix (R_ij t_ij : np.ndarray)
  : result np.ndarray :=
  T_ij <- np.block R_ij t_ij (np.zeros 1 3) [[1]] ;;
  OK T_ij.

(** ** The chain solver *)

(** The homogeneous origin column [np.array([[0], [0], [0], [1]])]. *)
Definition origin_h : np.ndarray := [[0]; [0]; [0]; [1]].

(** [forward_kinematics(Phi, L1, L2, L3, L4)].  The meshes built between the
    matrix computations (arrows, cylinders, spheres, [apply_transform]) are
    the renderer's and leave the matrices untouched; they are not modelled.
    [T_01 @ T_12 @ T_23] associates to the left, as Python's [@] does. *)
Definition forward_kinematics (Phi : np.vector) (L1 L2 L3 L4 : R)
  : result (np.ndarray * np.ndarray * np.ndarray * np.ndarray * np.vector) :=
  (* Matrix of Frame 1 (written w.r.t. Frame 0) *)
  Phi_0 <- np.getitem Phi 0 ;;
  R_01 <- RotationMatrix Phi_0 "z" ;;
  let p1 := [[3]; [2]; [0.0]] in
  let t_01 := p1 in
  T_01 <- getLocalFrameMatrix R_01 t_01 ;;
  (* Matrix of Frame 2 (written w.r.t. Frame 1) *)
  Phi_1 <- np.getitem Phi 1 ;;
  R_12 <- RotationMatrix Phi_1 "z" ;;
  let p2 := [[L1 + 0.8]; [0.0]; [0.0]] in
  let t_12 := p2 in
  T_12 <- getLocalFrameMatrix R_12 t_12 ;;
  (* Matrix of Frame 2 w.r.t. Frame 0 *)
  T_02 <- T_01 @ T_12 ;;
  (* Matrix of Frame 3 (written w.r.t. Frame 2) *)
  Phi_2 <- np.getitem Phi 2 ;;
  R_23 <- RotationMatrix Phi_2 "z" ;;
  let p3 := [[L2 + 0.8]; [0.0]; [0.0]] in
  let t_23 := p3 in
  T_23 <- getLocalFrameMatrix R_23 t_23 ;;
  T_03 <- (m <- T_01 @ T_12 ;; m @ T_23) ;;
  Phi_3 <- np.getitem Phi 3 ;;
  R_34 <- RotationMatrix Phi_3 "z" ;;
  let p4 := [[L3 + 0.4]; [0.0]; [0.0]] in
  let t_34 := p4 in
  T_34 <- getLocalFrameMatrix R_34 t_34 ;;
  T_04 <- (m <- (m <- T_01 @ T_12 ;; m @ T_23) ;; m @ T_34) ;;
  (* The end-effector's position in homogeneous coordinates *)
  eh <- T_04 @ origin_h ;;
  let e := np.flatten (np.take_rows 3 eh) in
  OK (T_01, T_02, T_03, T_04, e).

(** [main()], up to the vector [x] it prints; the scene it then shows is
    the renderer's. *)
Definition main : result np.vector :=
  (* Lengths of arm parts *)
  let L1 := 5 in
  let L2 := 8 in
  let L3 := 3 in
  (* Joint angles *)
  let phi1 := 30 in
  let phi2 := -50 in
  let phi3 := -30 in
  let phi4 := 0 in
  R_01 <- RotationMatrix phi1 "z" ;;
  let p1 := [[3]; [2]; [0.0]] in
  let t_01 := p1 in
  T_01 <- getLocalFrameMatrix R_01 t_01 ;;
  R_12 <- RotationMatrix phi2 "z" ;;
  let p2 := [[L1 + 0.8]; [0.0]; [0.0]] in
  let t_12 := p2 in
  T_12 <- getLocalFrameMatrix R_12 t_12 ;;
  T_02 <- T_01 @ T_12 ;;
  R_23 <- RotationMatrix phi3 "z" ;;
  let p3 := [[L2 + 0.8]; [0.0]; [0.0]] in
  let t_23 := p3 in
  T_23 <- getLocalFrameMatrix R_23 t_23 ;;
  T_03 <- (m <- T_01 @ T_12 ;; m @ T_23) ;;
  R_34 <- RotationMatrix phi4 "z" ;;
  let p4 := [[L3 + 0.4]; [0.0]; [0.0]] in
  let t_34 := p4 in
  T_34 <- getLocalFrameMatrix R_34 t_34 ;;
  T_04 <- (m <- (m <- T_01 @ T_12 ;; m @ T_23) ;; m @ T_34) ;;
  xh <- T_04 @ origin_h ;;
  let x := np.flatten (np.take_rows 3 xh) in
  OK x.

(** The local transform of one joint, the way [forward_kinematics] and
    [main] build each of theirs: a rotation about z by the joint angle and
    the origin [p] of the frame in its parent's coordinates. *)
Definition local_frame (theta : R) (p : np.ndarray) : result np.ndarray :=
  R_ij <- RotationMatrix theta "z" ;;
  getLocalFrameMatrix R_ij p.

(** A homogeneous point of the plane z = 0. *)
Definition point_z0 (x y : R) : np.ndarray := [[x]; [y]; [0]; [1]].

(** [T] maps the plane z = 0 to itself: into it, and onto it. *)
Definition maps_plane_z0_to_itself (T : np.ndarray) : Prop :=
  (forall x y, exists x' y', T @ point_z0 x y = OK (point_z0 x' y')) /\
  (forall x' y', exists x y, T @ point_z0 x y = OK (point_z0 x' y')).

(** * Properties *)

(** ** Planar rigid transforms

    Every matrix the chain solver builds is a rotation about z by an angle
    of cosine [a] and sine [b] followed by a translation [(tx, ty, 0)]. *)

Definition planar (p : R * R * R * R) : np.ndarray :=
  let '(a, b, tx, ty) := p in
  [[a; - b; 0; tx];
   [b;   a; 0; ty];
   [0;   0; 1;  0];
   [0;   0; 0;  1]].

(** Parameters of the product of two planar transforms. *)
Definition pmul (p q : R * R * R * R) : R * R * R * R :=
  let '(a, b, tx, ty) := p in
  let '(a', b', tx', ty') := q in
  (a * a' - b * b', b * a' + a * b', a * tx' - b * ty' + tx,
   b * tx' + a * ty' + ty).

(** Parameters of the local frame of a joint turned by [theta] degrees whose
    origin is at [(tx, ty, 0)] in its parent's frame. *)
Definition joint (theta tx ty : R) : R * R * R * R :=
  (cos (theta * PI / 180), sin (theta * PI / 180), tx, ty).

(** The cosine and sine entries of a rotation. *)
Definition unit_pair (p : R * R * R * R) : Prop :=
  let '(a, b, _, _) := p in a * a + b * b = 1.

(** ** Notions of the further properties *)

(** Degrees to radians, the conversion [RotationMatrix] applies. *)
Definition radians (theta : R) : R := theta * PI / 180.

(** The 3x1 column of a point and the homogeneous 4x1 column of a 3x1 one. *)
Definition col3 (x y z : R) : np.ndarray := [[x]; [y]; [z]].
Definition homogeneous (p : np.ndarray) : np.ndarray := p ++ [[1]].

(** The sum of two arrays of the same shape, and the opposite of one. *)
Definition add (a b : np.ndarray) : np.ndarray :=
  map (fun rows => map (fun xy => fst xy + snd xy)
                       (combine (fst rows) (snd rows)))
      (combine a b).
Definition neg (a : np.ndarray) : np.ndarray := map (map Ropp) a.

(** The square of the Euclidean length of a column. *)
Definition norm2 (v : np.ndarray) : R := np.dot (np.flatten v) (np.flatten v).

(** [T[:3, :3]] and the last row of a 4x4 transform. *)
Definition rotation_part (T : np.ndarray) : np.ndarray :=
  map (firstn 3) (firstn 3 T).
Definition bottom_row (T : np.ndarray) : list R := nth 3 T [].

(** The origin of a frame in world coordinates: [x] and [y] of the image
    of the homogeneous origin. *)
Definition frame_origin (T : np.ndarray) : result (R * R) :=
  o <- T @ origin_h ;;
  OK (np.entry o 0 0, np.entry o 1 0).

(** The square of the distance between two points of the plane. *)
Definition dist2 (p q : R * R) : R :=
  (fst p - fst q) * (fst p - fst q) + (snd p - snd q) * (snd p - snd q).

(** A rigid transform: an orthonormal rotation part of determinant 1 over
    the bottom row [0, 0, 0, 1]. *)
Definition rigid (T : np.ndarray) : Prop :=
  rotation_part T @ np.transpose (rotation_part T) = OK (np.eye 3) /\
  np.det3 (rotation_part T) = 1 /\
  bottom_row T = [0; 0; 0; 1].

Lemma float_zero : 0.0 = 0.
Proof. lra. Qed.

Lemma cos_sin_unit x : cos x * cos x + sin x * sin x = 1.
Proof. generalize (sin2_cos2 x). unfold Rsqr. lra. Qed.

Lemma neg_degrees theta : - theta * PI / 180 = - (theta * PI / 180).
Proof. lra. Qed.

Ltac array_eq := rewrite ?float_zero; repeat (f_equal; try ring).

Lemma RotationMatrix_z theta :
  RotationMatrix theta "z" =
  OK [[cos (theta * PI / 180); - sin (theta * PI / 180); 0];
      [sin (theta * PI / 180);   cos (theta * PI / 180); 0];
      [0; 0; 1]].
Proof. reflexivity. Qed.

Lemma getLocalFrameMatrix_z c s tx ty :
  getLocalFrameMatrix [[c; - s; 0]; [s; c; 0]; [0; 0; 1]] [[tx]; [ty]; [0]]
  = OK (planar (c, s, tx, ty)).
Proof. reflexivity. Qed.

Lemma local_frame_joint theta tx ty :
  local_frame theta [[tx]; [ty]; [0]] = OK (planar (joint theta tx ty)).
Proof. reflexivity. Qed.

Lemma planar_matmul p q : planar p @ planar q = OK (planar (pmul p q)).
Proof.
  destruct p as [[[a b] tx] ty], q as [[[a' b'] tx'] ty'].
  cbn. array_eq.
Qed.

Lemma pmul_assoc p q r : pmul p (pmul q r) = pmul (pmul p q) r.
Proof.
  destruct p as [[[a b] tx] ty], q as [[[a' b'] tx'] ty'],
           r as [[[a'' b''] tx''] ty''].
  cbn. array_eq.
Qed.

Lemma pmul_unit p q : unit_pair p -> unit_pair q -> unit_pair (pmul p q).
Proof.
  destruct p as [[[a b] tx] ty], q as [[[a' b'] tx'] ty'].
  cbn. intros Hp Hq.
  replace ((a * a' - b * b') * (a * a' - b * b')
           + (b * a' + a * b') * (b * a' + a * b'))
    with ((a * a + b * b) * (a' * a' + b' * b')) by ring.
  rewrite Hp, Hq. ring.
Qed.

Lemma joint_unit theta tx ty : unit_pair (joint theta tx ty).
Proof. apply cos_sin_unit. Qed.

Lemma eye_planar p : np.eye 4 @ planar p = OK (planar p).
Proof. destruct p as [[[a b] tx] ty]. cbn. array_eq. Qed.

Lemma planar_origin p :
  planar p @ origin_h = OK [[snd (fst p)]; [snd p]; [0]; [1]].
Proof. destruct p as [[[a b] tx] ty]. cbn. array_eq. Qed.

Lemma planar_point a b tx ty x y :
  planar (a, b, tx, ty) @ point_z0 x y
  = OK (point_z0 (a * x - b * y + tx) (b * x + a * y + ty)).
Proof. cbn. unfold point_z0. array_eq. Qed.

Lemma planar_maps_plane p :
  unit_pair p -> maps_plane_z0_to_itself (planar p).
Proof.
  destruct p as [[[a b] tx] ty]. cbn [unit_pair]. intros Hu. split.
  - intros x y. do 2 eexists. apply planar_point.
  - intros x' y'.
    exists (a * (x' - tx) + b * (y' - ty)), (a * (y' - ty) - b * (x' - tx)).
    rewrite planar_point. unfold point_z0.
    repeat f_equal.
    + transitivity ((a * a + b * b) * (x' - tx) + tx);
        [ring | rewrite Hu; ring].
    + transitivity ((a * a + b * b) * (y' - ty) + ty);
        [ring | rewrite Hu; ring].
Qed.

(** Runs the binds of a chain computation one call at a time. *)
Ltac run_chain :=
  repeat (cbn [bind];
          first [ rewrite RotationMatrix_z
                | rewrite getLocalFrameMatrix_z
                | rewrite planar_matmul
                | rewrite planar_origin ]).

(** The run of the solver on at least four joint angles, in closed form. *)
Lemma forward_kinematics_run phi0 phi1 phi2 phi3 rest L1 L2 L3 L4 :
  let j1 := joint phi0 3 2 in
  let j2 := joint phi1 (L1 + 0.8) 0 in
  let j3 := joint phi2 (L2 + 0.8) 0 in
  let j4 := joint phi3 (L3 + 0.4) 0 in
  let p4 := pmul (pmul (pmul j1 j2) j3) j4 in
  forward_kinematics (phi0 :: phi1 :: phi2 :: phi3 :: rest) L1 L2 L3 L4 =
  OK (planar j1, planar (pmul j1 j2), planar (pmul (pmul j1 j2) j3),
      planar p4, [snd (fst p4); snd p4; 0]).
Proof.
  intros. unfold forward_kinematics.
  cbn [np.getitem nth_error]. rewrite float_zero.
  run_chain. reflexivity.
Qed.

(** The run of [main], in the same closed form. *)
Lemma main_run :
  let p4 := pmul (pmul (pmul (joint 30 3 2) (joint (-50) (5 + 0.8) 0))
                       (joint (-30) (8 + 0.8) 0))
                 (joint 0 (3 + 0.4) 0) in
  main = OK [snd (fst p4); snd p4; 0].
Proof.
  intros. unfold main. rewrite float_zero.
  run_chain. reflexivity.
Qed.

(** ** The rotation builder *)

Lemma valid_axis_cases (axis_name : string) :
  In axis_name ["x"; "y"; "z"]%string ->
  axis_name = "x"%string \/ axis_name = "y"%string \/ axis_name = "z"%string.
Proof. cbn. intuition. Qed.

(** C1: for every angle [theta] and every axis among x, y and z,
    [RotationMatrix] returns a matrix [Rm] which is orthonormal, [Rm] times
    its transpose being the 3x3 identity, and whose determinant is 1. *)
Theorem RotationMatrix_orthonormal (theta : R) (axis_name : string) :
  In axis_name ["x"; "y"; "z"]%string ->
  exists Rm,
    RotationMatrix theta axis_name = OK Rm /\
    Rm @ np.transpose Rm = OK (np.eye 3) /\
    np.det3 Rm = 1.
Proof.
  intros Hax.
  pose proof (cos_sin_unit (theta * PI / 180)) as Hu.
  apply valid_axis_cases in Hax.
  destruct Hax as [-> | [-> | ->]];
    (eexists; split; [reflexivity | split];
     [cbn; repeat f_equal; nra | unfold np.det3, np.entry; cbn; nra]).
Qed.

Lemma RotationMatrix_orthonormal_witness :
  In "y"%string ["x"; "y"; "z"]%string /\
  exists Rm,
    RotationMatrix 30 "y" = OK Rm /\
    Rm @ np.transpose Rm = OK (np.eye 3) /\
    np.det3 Rm = 1.
Proof.
  split.
  - simpl. auto.
  - apply (RotationMatrix_orthonormal 30 "y"). simpl. auto.
Defined.

(** C2: for every angle [theta] and every axis among x, y and z, the
    rotation by [theta] times the rotation by [- theta] about the same axis
    is the 3x3 identity. *)
Theorem RotationMatrix_inverse (theta : R) (axis_name : string) :
  In axis_name ["x"; "y"; "z"]%string ->
  exists Rm Rm',
    RotationMatrix theta axis_name = OK Rm /\
    RotationMatrix (- theta) axis_name = OK Rm' /\
    Rm @ Rm' = OK (np.eye 3).
Proof.
  intros Hax.
  pose proof (cos_sin_unit (theta * PI / 180)) as Hu.
  apply valid_axis_cases in Hax.
  destruct Hax as [-> | [-> | ->]];
    (do 2 eexists; split; [reflexivity | split; [reflexivity |]];
     rewrite neg_degrees, cos_neg, sin_neg; cbn;
     repeat f_equal; nra).
Qed.

Lemma RotationMatrix_inverse_witness :
  In "x"%string ["x"; "y"; "z"]%string /\
  exists Rm Rm',
    RotationMatrix 45 "x" = OK Rm /\
    RotationMatrix (- 45) "x" = OK Rm' /\
    Rm @ Rm' = OK (np.eye 3).
Proof.
  split.
  - simpl. auto.
  - apply (RotationMatrix_inverse 45 "x"). simpl. auto.
Defined.

(** C6: for every axis tag other than x, y and z the call raises: no branch
    assigns [rotation_matrix], and reading it at [return] is Python's
    [UnboundLocalError]; no matrix is returned. *)
Theorem RotationMatrix_invalid_axis (theta : R) (axis_name : string) :
  ~ In axis_name ["x"; "y"; "z"]%string ->
  RotationMatrix theta axis_name = Raise UnboundLocalError /\
  forall Rm, RotationMatrix theta axis_name <> OK Rm.
Proof.
  intros Hax. cbn in Hax.
  assert (E : RotationMatrix theta axis_name = Raise UnboundLocalError).
  { unfold RotationMatrix.
    destruct (String.eqb_spec axis_name "x") as [-> | _]; [tauto |].
    destruct (String.eqb_spec axis_name "y") as [-> | _]; [tauto |].
    destruct (String.eqb_spec axis_name "z") as [-> | _]; [tauto |].
    reflexivity. }
  split; [exact E | intros Rm H; rewrite E in H; discriminate].
Qed.

Lemma RotationMatrix_invalid_axis_witness :
  ~ In "w"%string ["x"; "y"; "z"]%string /\
  RotationMatrix 90 "w" = Raise UnboundLocalError /\
  forall Rm, RotationMatrix 90 "w" <> OK Rm.
Proof.
  assert (H : ~ In "w"%string ["x"; "y"; "z"]%string).
  { simpl. intros [H | [H | [H | H]]]; try discriminate H; exact H. }
  split.
  - exact H.
  - exact (RotationMatrix_invalid_axis 90 "w" H).
Defined.

(** ** The homogeneous frame builder *)

Lemma rectangular_3_3 (m : np.ndarray) :
  np.rectangular 3 3 m ->
  exists r11 r12 r13 r21 r22 r23 r31 r32 r33,
    m = [[r11; r12; r13]; [r21; r22; r23]; [r31; r32; r33]].
Proof.
  intros [Hlen Hrows].
  destruct m as [| a [| b [| c [| ? ?]]]]; try discriminate Hlen.
  inversion_clear Hrows as [| ? ? Ha Hrows1].
  inversion_clear Hrows1 as [| ? ? Hb Hrows2].
  inversion_clear Hrows2 as [| ? ? Hc _].
  destruct a as [| ? [| ? [| ? [| ? ?]]]]; try discriminate Ha.
  destruct b as [| ? [| ? [| ? [| ? ?]]]]; try discriminate Hb.
  destruct c as [| ? [| ? [| ? [| ? ?]]]]; try discriminate Hc.
  repeat eexists.
Qed.

Lemma rectangular_3_1 (m : np.ndarray) :
  np.rectangular 3 1 m ->
  exists t1 t2 t3, m = [[t1]; [t2]; [t3]].
Proof.
  intros [Hlen Hrows].
  destruct m as [| a [| b [| c [| ? ?]]]]; try discriminate Hlen.
  inversion_clear Hrows as [| ? ? Ha Hrows1].
  inversion_clear Hrows1 as [| ? ? Hb Hrows2].
  inversion_clear Hrows2 as [| ? ? Hc _].
  destruct a as [| ? [| ? ?]]; try discriminate Ha.
  destruct b as [| ? [| ? ?]]; try discriminate Hb.
  destruct c as [| ? [| ? ?]]; try discriminate Hc.
  repeat eexists.
Qed.

(** C3: for every 3x3 array [R_ij] and 3x1 array [t_ij],
    [getLocalFrameMatrix] returns the 4x4 block matrix with [R_ij] top
    left, [t_ij] top right and the bottom row [0, 0, 0, 1]; applied to the
    homogeneous origin it gives [t_ij] followed by 1. *)
Theorem getLocalFrameMatrix_block (R_ij t_ij : np.ndarray) :
  np.rectangular 3 3 R_ij ->
  np.rectangular 3 1 t_ij ->
  exists r11 r12 r13 r21 r22 r23 r31 r32 r33 t1 t2 t3 T_ij,
    R_ij = [[r11; r12; r13]; [r21; r22; r23]; [r31; r32; r33]] /\
    t_ij = [[t1]; [t2]; [t3]] /\
    getLocalFrameMatrix R_ij t_ij = OK T_ij /\
    T_ij = [[r11; r12; r13; t1];
            [r21; r22; r23; t2];
            [r31; r32; r33; t3];
            [0;   0;   0;   1]] /\
    nth 3 T_ij [] = [0; 0; 0; 1] /\
    T_ij @ origin_h = OK [[t1]; [t2]; [t3]; [1]].
Proof.
  intros HR Ht.
  destruct (rectangular_3_3 R_ij HR)
    as (r11 & r12 & r13 & r21 & r22 & r23 & r31 & r32 & r33 & ->).
  destruct (rectangular_3_1 t_ij Ht) as (t1 & t2 & t3 & ->).
  exists r11, r12, r13, r21, r22, r23, r31, r32, r33, t1, t2, t3.
  eexists. repeat split. cbn. array_eq.
Qed.

Lemma getLocalFrameMatrix_block_witness :
  np.rectangular 3 3 [[1; 0; 0]; [0; 1; 0]; [0; 0; 1]] /\
  np.rectangular 3 1 [[3]; [2]; [0]] /\
  exists r11 r12 r13 r21 r22 r23 r31 r32 r33 t1 t2 t3 T_ij,
    [[1; 0; 0]; [0; 1; 0]; [0; 0; 1]]
    = [[r11; r12; r13]; [r21; r22; r23]; [r31; r32; r33]] /\
    [[3]; [2]; [0]] = [[t1]; [t2]; [t3]] /\
    getLocalFrameMatrix [[1; 0; 0]; [0; 1; 0]; [0; 0; 1]] [[3]; [2]; [0]]
    = OK T_ij /\
    T_ij = [[r11; r12; r13; t1];
            [r21; r22; r23; t2];
            [r31; r32; r33; t3];
            [0;   0;   0;   1]] /\
    nth 3 T_ij [] = [0; 0; 0; 1] /\
    T_ij @ origin_h = OK [[t1]; [t2]; [t3]; [1]].
Proof.
  assert (H33 : np.rectangular 3 3 [[1; 0; 0]; [0; 1; 0]; [0; 0; 1]]).
  { split; [reflexivity | repeat constructor]. }
  assert (H31 : np.rectangular 3 1 [[3]; [2]; [0]]).
  { split; [reflexivity | repeat constructor]. }
  split; [exact H33 | split; [exact H31 |]].
  exact (getLocalFrameMatrix_block _ _ H33 H31).
Defined.

(** ** The chain solver *)

(** C4: the cumulative transforms obey [Pose i = Pose (i-1) @ T_local i]
    from the 4x4 identity on, and [T_04] is the product
    [T_01 @ T_12 @ T_23 @ T_34] taken from base to tip, as the code brackets
    it (to the left) and also bracketed to the right. *)
Theorem forward_kinematics_composition
        (phi0 phi1 phi2 phi3 : R) (rest : list R) (L1 L2 L3 L4 : R) :
  exists T_01 T_12 T_23 T_34 T_02 T_03 T_04 e,
    local_frame phi0 [[3]; [2]; [0.0]] = OK T_01 /\
    local_frame phi1 [[L1 + 0.8]; [0.0]; [0.0]] = OK T_12 /\
    local_frame phi2 [[L2 + 0.8]; [0.0]; [0.0]] = OK T_23 /\
    local_frame phi3 [[L3 + 0.4]; [0.0]; [0.0]] = OK T_34 /\
    forward_kinematics (phi0 :: phi1 :: phi2 :: phi3 :: rest) L1 L2 L3 L4
    = OK (T_01, T_02, T_03, T_04, e) /\
    np.eye 4 @ T_01 = OK T_01 /\
    T_01 @ T_12 = OK T_02 /\
    T_02 @ T_23 = OK T_03 /\
    T_03 @ T_34 = OK T_04 /\
    (m <- (m <- T_01 @ T_12 ;; m @ T_23) ;; m @ T_34) = OK T_04 /\
    (m <- (m <- T_23 @ T_34 ;; T_12 @ m) ;; T_01 @ m) = OK T_04.
Proof.
  do 8 eexists.
  rewrite forward_kinematics_run, float_zero, !local_frame_joint.
  repeat (split; [reflexivity |]).
  rewrite eye_planar.
  repeat (split; [run_chain; reflexivity |]).
  run_chain. rewrite !pmul_assoc. reflexivity.
Qed.

(** C5: the end-effector position [e] is made of the first three components
    of [T_04] applied to the homogeneous origin column, and the fourth
    component of that product is 1. *)
Theorem forward_kinematics_end_effector
        (phi0 phi1 phi2 phi3 : R) (rest : list R) (L1 L2 L3 L4 : R) :
  exists T_01 T_02 T_03 T_04 e1 e2 e3,
    forward_kinematics (phi0 :: phi1 :: phi2 :: phi3 :: rest) L1 L2 L3 L4
    = OK (T_01, T_02, T_03, T_04, [e1; e2; e3]) /\
    T_04 @ origin_h = OK [[e1]; [e2]; [e3]; [1]].
Proof.
  do 7 eexists.
  rewrite forward_kinematics_run, planar_origin.
  split; reflexivity.
Qed.

(** C7, as the code has it: the solver is written for four joints.  It reads
    [Phi[0]] to [Phi[3]]: on fewer than four angles, the empty vector among
    them, it raises [IndexError]; on four or more it returns four
    transforms and the end-effector position. *)
Theorem forward_kinematics_four_joints (Phi : np.vector) (L1 L2 L3 L4 : R) :
  ((length Phi < 4)%nat ->
   forward_kinematics Phi L1 L2 L3 L4 = Raise IndexError) /\
  ((4 <= length Phi)%nat ->
   exists T_01 T_02 T_03 T_04 e,
     forward_kinematics Phi L1 L2 L3 L4 = OK (T_01, T_02, T_03, T_04, e)).
Proof.
  destruct Phi as [| phi0 [| phi1 [| phi2 [| phi3 rest]]]]; cbn [length];
    (split; intros Hlen; [| try lia]).
  1-4: unfold forward_kinematics; cbn [np.getitem nth_error];
       rewrite float_zero; run_chain; reflexivity.
  - lia.
  - do 5 eexists. apply forward_kinematics_run.
Qed.

Lemma forward_kinematics_four_joints_witness :
  forward_kinematics [30; -50] 5 8 3 0 = Raise IndexError /\
  exists T_01 T_02 T_03 T_04 e,
    forward_kinematics [30; -50; -30; 0] 5 8 3 0
    = OK (T_01, T_02, T_03, T_04, e).
Proof.
  split.
  - apply (proj1 (forward_kinematics_four_joints [30; -50] 5 8 3 0)).
    simpl. lia.
  - apply (proj2 (forward_kinematics_four_joints [30; -50; -30; 0] 5 8 3 0)).
    simpl. lia.
Defined.

(** C7, as stated, fails: on the empty chain the solver raises. *)
Lemma forward_kinematics_empty_chain_raises :
  forward_kinematics [] 5 8 3 0 = Raise IndexError /\
  ~ exists poses, forward_kinematics [] 5 8 3 0 = OK (poses, [0; 0; 0]).
Proof.
  split; [reflexivity |].
  intros [poses H]. discriminate H.
Qed.

(** C8: on link lengths 5, 8, 3 and joint angles 30, -50, -30, 0 the solver
    returns the end-effector position that [main] computes and prints. *)
Theorem forward_kinematics_agrees_with_main (L4 : R) :
  exists T_01 T_02 T_03 T_04 e,
    forward_kinematics [30; -50; -30; 0] 5 8 3 L4
    = OK (T_01, T_02, T_03, T_04, e) /\
    main = OK e.
Proof.
  do 5 eexists.
  rewrite forward_kinematics_run, main_run.
  split; reflexivity.
Qed.

(** C9: the result of the solver, a value or an exception, does not depend
    on [L4]. *)
Theorem forward_kinematics_ignores_L4
        (Phi : np.vector) (L1 L2 L3 L4 L4' : R) :
  forward_kinematics Phi L1 L2 L3 L4 = forward_kinematics Phi L1 L2 L3 L4'.
Proof. reflexivity. Qed.

(** C10: every local transform is a rotation about z with an offset in the
    plane z = 0; hence the z-coordinate of the end effector is 0 and every
    cumulative transform maps the plane z = 0 to itself. *)
Theorem forward_kinematics_planar
        (phi0 phi1 phi2 phi3 : R) (rest : list R) (L1 L2 L3 L4 : R) :
  exists T_01 T_02 T_03 T_04 ex ey ez,
    forward_kinematics (phi0 :: phi1 :: phi2 :: phi3 :: rest) L1 L2 L3 L4
    = OK (T_01, T_02, T_03, T_04, [ex; ey; ez]) /\
    ez = 0 /\
    Forall maps_plane_z0_to_itself [T_01; T_02; T_03; T_04] /\
    Forall (fun T => exists p, T = planar p /\ unit_pair p)
           [T_01; T_02; T_03; T_04].
Proof.
  do 7 eexists.
  rewrite forward_kinematics_run.
  split; [reflexivity | split; [reflexivity |]].
  assert (Hu : Forall unit_pair
                 [joint phi0 3 2;
                  pmul (joint phi0 3 2) (joint phi1 (L1 + 0.8) 0);
                  pmul (pmul (joint phi0 3 2) (joint phi1 (L1 + 0.8) 0))
                       (joint phi2 (L2 + 0.8) 0);
                  pmul (pmul (pmul (joint phi0 3 2)
                                   (joint phi1 (L1 + 0.8) 0))
                             (joint phi2 (L2 + 0.8) 0))
                       (joint phi3 (L3 + 0.4) 0)]).
  { repeat constructor; repeat apply pmul_unit; apply joint_unit. }
  inversion_clear Hu as [| ? ? H1 Hu1].
  inversion_clear Hu1 as [| ? ? H2 Hu2].
  inversion_clear Hu2 as [| ? ? H3 Hu3].
  inversion_clear Hu3 as [| ? ? H4 _].
  split; repeat constructor;
    solve [ apply planar_maps_plane; assumption
          | eexists; split; [reflexivity | assumption] ].
Qed.

(** * Further properties *)

(** ** Rotations about one axis *)

Lemma radians_plus a b : (a + b) * PI / 180 = a * PI / 180 + b * PI / 180.
Proof. lra. Qed.




(** X1: the rotation by 0 degrees about x, y or z is the 3x3 identity. *)
Theorem RotationMatrix_zero (axis_name : string) :
  In axis_name ["x"; "y"; "z"]%string ->
  RotationMatrix 0 axis_name = OK (np.eye 3).
Proof.
  intros Hax. apply valid_axis_cases in Hax.
  assert (E : 0 * PI / 180 = 0) by lra.
  destruct Hax as [-> | [-> | ->]];
    unfold RotationMatrix; rewrite E, cos_0, sin_0; cbn; array_eq.
Qed.

Lemma RotationMatrix_zero_witness :
  In "z"%string ["x"; "y"; "z"]%string /\
  RotationMatrix 0 "z" = OK (np.eye 3).
Proof.
  split.
  - simpl. auto.
  - apply (RotationMatrix_zero "z"). simpl. auto.
Defined.


(** X3: rotations about one axis add their angles: the rotation by [alpha]
    times the rotation by [beta] is the rotation by [alpha + beta], and so
    two rotations about one axis commute. *)
Theorem RotationMatrix_add (alpha beta : R) (axis_name : string) :
  In axis_name ["x"; "y"; "z"]%string ->
  exists A B C,
    RotationMatrix alpha axis_name = OK A /\
    RotationMatrix beta axis_name = OK B /\
    RotationMatrix (alpha + beta) axis_name = OK C /\
    A @ B = OK C /\
    B @ A = OK C.
Proof.
  intros Hax. apply valid_axis_cases in Hax.
  destruct Hax as [-> | [-> | ->]];
    (do 3 eexists;
     split; [reflexivity | split; [reflexivity | split; [reflexivity |]]];
     rewrite radians_plus, cos_plus, sin_plus; cbn;
     split; array_eq).
Qed.

Lemma RotationMatrix_add_witness :
  In "y"%string ["x"; "y"; "z"]%string /\
  exists A B C,
    RotationMatrix 30 "y" = OK A /\
    RotationMatrix (-50) "y" = OK B /\
    RotationMatrix (30 + -50) "y" = OK C /\
    A @ B = OK C /\
    B @ A = OK C.
Proof.
  split.
  - simpl. auto.
  - apply (RotationMatrix_add 30 (-50) "y"). simpl. auto.
Defined.

(** X4: the transpose of the rotation by [theta] is the rotation by
    [- theta] about the same axis. *)
Theorem RotationMatrix_transpose (theta : R) (axis_name : string) :
  In axis_name ["x"; "y"; "z"]%string ->
  exists A B,
    RotationMatrix theta axis_name = OK A /\
    RotationMatrix (- theta) axis_name = OK B /\
    np.transpose A = B.
Proof.
  intros Hax. apply valid_axis_cases in Hax.
  destruct Hax as [-> | [-> | ->]];
    (do 2 eexists; split; [reflexivity | split; [reflexivity |]];
     rewrite neg_degrees, cos_neg, sin_neg; cbn; array_eq).
Qed.

Lemma RotationMatrix_transpose_witness :
  In "x"%string ["x"; "y"; "z"]%string /\
  exists A B,
    RotationMatrix 60 "x" = OK A /\
    RotationMatrix (- 60) "x" = OK B /\
    np.transpose A = B.
Proof.
  split.
  - simpl. auto.
  - apply (RotationMatrix_transpose 60 "x"). simpl. auto.
Defined.

(** X5: each rotation leaves its own axis fixed: the x rotation the column
    (1,0,0), the y rotation (0,1,0), the z rotation (0,0,1). *)
Theorem RotationMatrix_fixes_axis (theta : R) :
  (Rx <- RotationMatrix theta "x" ;; Rx @ col3 1 0 0) = OK (col3 1 0 0) /\
  (Ry <- RotationMatrix theta "y" ;; Ry @ col3 0 1 0) = OK (col3 0 1 0) /\
  (Rz <- RotationMatrix theta "z" ;; Rz @ col3 0 0 1) = OK (col3 0 0 1).
Proof. repeat split; cbn; unfold col3; array_eq. Qed.

(** X6: a rotation keeps the length of every vector. *)
Theorem RotationMatrix_preserves_norm
        (theta : R) (axis_name : string) (x y z : R) :
  In axis_name ["x"; "y"; "z"]%string ->
  exists Rm v,
    RotationMatrix theta axis_name = OK Rm /\
    Rm @ col3 x y z = OK v /\
    norm2 v = norm2 (col3 x y z).
Proof.
  intros Hax.
  pose proof (cos_sin_unit (theta * PI / 180)) as Hu.
  apply valid_axis_cases in Hax.
  destruct Hax as [-> | [-> | ->]];
    (do 2 eexists; split; [reflexivity | split; [reflexivity |]];
     cbn; nra).
Qed.

Lemma RotationMatrix_preserves_norm_witness :
  In "z"%string ["x"; "y"; "z"]%string /\
  exists Rm v,
    RotationMatrix 30 "z" = OK Rm /\
    Rm @ col3 1 2 3 = OK v /\
    norm2 v = norm2 (col3 1 2 3).
Proof.
  split.
  - simpl. auto.
  - apply (RotationMatrix_preserves_norm 30 "z" 1 2 3). simpl. auto.
Defined.

(** ** Homogeneous frames *)

Lemma rectangular_cons r c row m :
  np.rectangular (S r) c (row :: m) <->
  length row = c /\ np.rectangular r c m.
Proof.
  unfold np.rectangular. cbn [length]. split.
  - intros [Hlen Hrows]. inversion_clear Hrows.
    repeat split; [assumption | lia | assumption].
  - intros [Hrow [Hlen Hrows]]. split; [lia | constructor; assumption].
Qed.

Lemma rectangular_beside r c c' (a b : np.ndarray) :
  np.rectangular r c a ->
  np.rectangular r c' b ->
  np.rectangular r (c + c') (map (fun p => fst p ++ snd p) (combine a b)).
Proof.
  revert a b. induction r as [| r IH]; intros a b Ha Hb.
  - destruct Ha as [Ha _]. destruct a; [| discriminate Ha].
    split; [reflexivity | constructor].
  - destruct a as [| ra a]; [destruct Ha as [Ha _]; discriminate Ha |].
    destruct b as [| rb b]; [destruct Hb as [Hb _]; discriminate Hb |].
    apply rectangular_cons in Ha. destruct Ha as [Hra Ha].
    apply rectangular_cons in Hb. destruct Hb as [Hrb Hb].
    cbn [combine map fst snd]. apply rectangular_cons. split.
    + rewrite length_app. lia.
    + apply IH; assumption.
Qed.

Lemma rectangular_ncols r c (m : np.ndarray) :
  (0 < r)%nat -> np.rectangular r c m -> np.ncols m = c.
Proof.
  intros Hr [Hlen Hrows]. destruct m as [| row m].
  - cbn in Hlen. lia.
  - inversion_clear Hrows. assumption.
Qed.

Lemma rectangular_above r c (a : np.ndarray) (row : list R) :
  np.rectangular r c a -> length row = c ->
  np.rectangular (r + 1) c (a ++ [row]).
Proof.
  intros [Hlen Hrows] Hrow. split.
  - rewrite length_app. cbn. lia.
  - apply Forall_app. split; [assumption | repeat constructor; assumption].
Qed.

Lemma hstack_rectangular r c r' c' (a b : np.ndarray) :
  np.rectangular r c a ->
  np.rectangular r' c' b ->
  np.hstack a b =
  if (r =? r')%nat
  then OK (map (fun p => fst p ++ snd p) (combine a b))
  else Raise ValueError.
Proof.
  intros [Ha _] [Hb _]. unfold np.hstack, np.nrows.
  rewrite Ha, Hb. reflexivity.
Qed.

(** X7: the frame builder checks shapes and nothing else.  For an [r] x [c]
    rotation argument ([r] positive) and an [r'] x [c'] translation
    argument it returns an ([r] + 1) x 4 array ending in the row
    [0, 0, 0, 1] when [r = r'] and [c + c' = 4], and raises [ValueError]
    otherwise. *)
Theorem getLocalFrameMatrix_shapes
        (r c r' c' : nat) (R_ij t_ij : np.ndarray) :
  (0 < r)%nat ->
  np.rectangular r c R_ij ->
  np.rectangular r' c' t_ij ->
  (r = r' /\ (c + c' = 4)%nat ->
   exists T_ij,
     getLocalFrameMatrix R_ij t_ij = OK T_ij /\
     np.rectangular (r + 1) 4 T_ij /\
     nth r T_ij [] = [0; 0; 0; 1]) /\
  (r <> r' \/ (c + c' <> 4)%nat ->
   getLocalFrameMatrix R_ij t_ij = Raise ValueError).
Proof.
  intros Hr HR Ht.
  unfold getLocalFrameMatrix, np.block.
  rewrite (hstack_rectangular _ _ _ _ _ _ HR Ht).
  destruct (Nat.eqb_spec r r') as [<- | Hne].
  - pose proof (rectangular_beside _ _ _ _ _ HR Ht) as Htop.
    set (top := map (fun p => fst p ++ snd p) (combine R_ij t_ij)) in *.
    cbn [bind np.hstack np.zeros repeat np.nrows length Nat.eqb combine map
         fst snd app].
    unfold np.vstack. rewrite (rectangular_ncols _ _ _ Hr Htop).
    cbn [np.ncols hd length].
    destruct (Nat.eqb_spec (c + c') 4) as [Hc | Hc].
    + split; [| intros [H | H]; congruence].
      intros _. eexists. cbn [bind]. split; [reflexivity |]. split.
      * rewrite <- Hc. apply rectangular_above; [assumption |].
        rewrite Hc. reflexivity.
      * destruct Htop as [Hlen _].
        rewrite app_nth2 by lia. rewrite Hlen, Nat.sub_diag. reflexivity.
    + split; [intros [_ H]; congruence | reflexivity].
  - cbn [bind]. split; [intros [H _]; congruence | reflexivity].
Qed.

Lemma getLocalFrameMatrix_shapes_witness :
  (exists T_ij,
     getLocalFrameMatrix [[1; 0]; [0; 1]] [[3; 4]; [2; 5]] = OK T_ij /\
     np.rectangular (2 + 1) 4 T_ij /\
     nth 2 T_ij [] = [0; 0; 0; 1]) /\
  getLocalFrameMatrix [[1; 0; 0]; [0; 1; 0]; [0; 0; 1]] [[3]; [2]]
  = Raise ValueError.
Proof.
  assert (H22 : np.rectangular 2 2 [[1; 0]; [0; 1]]).
  { split; [reflexivity | repeat constructor]. }
  assert (H22' : np.rectangular 2 2 [[3; 4]; [2; 5]]).
  { split; [reflexivity | repeat constructor]. }
  assert (H33 : np.rectangular 3 3 [[1; 0; 0]; [0; 1; 0]; [0; 0; 1]]).
  { split; [reflexivity | repeat constructor]. }
  assert (H21 : np.rectangular 2 1 [[3]; [2]]).
  { split; [reflexivity | repeat constructor]. }
  split.
  - apply (proj1 (getLocalFrameMatrix_shapes 2 2 2 2 _ _
                    (Nat.lt_0_succ 1) H22 H22')).
    split; reflexivity.
  - apply (proj2 (getLocalFrameMatrix_shapes 3 3 2 1 _ _
                    (Nat.lt_0_succ 2) H33 H21)).
    left. discriminate.
Defined.

(** X8: the frame of [R_ij] and [t_ij] sends the homogeneous point of [p]
    to the homogeneous point of [R_ij p + t_ij]. *)
Theorem getLocalFrameMatrix_apply (R_ij t_ij p : np.ndarray) :
  np.rectangular 3 3 R_ij ->
  np.rectangular 3 1 t_ij ->
  np.rectangular 3 1 p ->
  exists T_ij Rp,
    getLocalFrameMatrix R_ij t_ij = OK T_ij /\
    R_ij @ p = OK Rp /\
    T_ij @ homogeneous p = OK (homogeneous (add Rp t_ij)).
Proof.
  intros HR Ht Hp.
  destruct (rectangular_3_3 R_ij HR)
    as (r11 & r12 & r13 & r21 & r22 & r23 & r31 & r32 & r33 & ->).
  destruct (rectangular_3_1 t_ij Ht) as (t1 & t2 & t3 & ->).
  destruct (rectangular_3_1 p Hp) as (x & y & z & ->).
  do 2 eexists. split; [reflexivity | split; [reflexivity |]].
  cbn. array_eq.
Qed.

Lemma getLocalFrameMatrix_apply_witness :
  exists T_ij Rp,
    getLocalFrameMatrix [[0; -1; 0]; [1; 0; 0]; [0; 0; 1]] [[3]; [2]; [0]]
    = OK T_ij /\
    [[0; -1; 0]; [1; 0; 0]; [0; 0; 1]] @ [[1]; [0]; [0]] = OK Rp /\
    T_ij @ homogeneous [[1]; [0]; [0]]
    = OK (homogeneous (add Rp [[3]; [2]; [0]])).
Proof.
  apply getLocalFrameMatrix_apply;
    (split; [reflexivity | repeat constructor]).
Defined.

(** X9: frames compose as rigid motions: the product of the frames of
    [(R1, t1)] and [(R2, t2)] is the frame of [(R1 R2, R1 t2 + t1)]. *)
Theorem getLocalFrameMatrix_compose (R1 t1 R2 t2 : np.ndarray) :
  np.rectangular 3 3 R1 -> np.rectangular 3 1 t1 ->
  np.rectangular 3 3 R2 -> np.rectangular 3 1 t2 ->
  exists T1 T2 R12 R1t2 T12,
    getLocalFrameMatrix R1 t1 = OK T1 /\
    getLocalFrameMatrix R2 t2 = OK T2 /\
    R1 @ R2 = OK R12 /\
    R1 @ t2 = OK R1t2 /\
    T1 @ T2 = OK T12 /\
    getLocalFrameMatrix R12 (add R1t2 t1) = OK T12.
Proof.
  intros HR1 Ht1 HR2 Ht2.
  destruct (rectangular_3_3 R1 HR1)
    as (a11 & a12 & a13 & a21 & a22 & a23 & a31 & a32 & a33 & ->).
  destruct (rectangular_3_1 t1 Ht1) as (u1 & u2 & u3 & ->).
  destruct (rectangular_3_3 R2 HR2)
    as (b11 & b12 & b13 & b21 & b22 & b23 & b31 & b32 & b33 & ->).
  destruct (rectangular_3_1 t2 Ht2) as (v1 & v2 & v3 & ->).
  do 5 eexists.
  repeat (split; [reflexivity |]).
  cbn. array_eq.
Qed.

Lemma getLocalFrameMatrix_compose_witness :
  exists T1 T2 R12 R1t2 T12,
    getLocalFrameMatrix [[0; -1; 0]; [1; 0; 0]; [0; 0; 1]] [[3]; [2]; [0]]
    = OK T1 /\
    getLocalFrameMatrix [[1; 0; 0]; [0; 1; 0]; [0; 0; 1]] [[5]; [0]; [0]]
    = OK T2 /\
    [[0; -1; 0]; [1; 0; 0]; [0; 0; 1]] @ [[1; 0; 0]; [0; 1; 0]; [0; 0; 1]]
    = OK R12 /\
    [[0; -1; 0]; [1; 0; 0]; [0; 0; 1]] @ [[5]; [0]; [0]] = OK R1t2 /\
    T1 @ T2 = OK T12 /\
    getLocalFrameMatrix R12 (add R1t2 [[3]; [2]; [0]]) = OK T12.
Proof.
  apply getLocalFrameMatrix_compose;
    (split; [reflexivity | repeat constructor]).
Defined.

(** Closes [lhs = 0] where [lhs] is [t] minus the left-hand sides of three
    equations weighted by [ta], [tb] and [tc]. *)
Ltac by_rows Ea Eb Ec ta tb tc t :=
  match type of Ea with
  | ?a = _ =>
    match type of Eb with
    | ?b = _ =>
      match type of Ec with
      | ?c = _ =>
        transitivity (t - a * ta - b * tb - c * tc);
        [ring | rewrite Ea, Eb, Ec; ring]
      end
    end
  end.

(** X10: a frame whose rotation part is orthonormal has the frame of
    [(Rt, - Rt t)] as a right inverse, [Rt] being the transpose of [R]. *)
Theorem getLocalFrameMatrix_inverse (R_ij t_ij : np.ndarray) :
  np.rectangular 3 3 R_ij ->
  np.rectangular 3 1 t_ij ->
  R_ij @ np.transpose R_ij = OK (np.eye 3) ->
  exists T_ij Rt_t T_ji,
    getLocalFrameMatrix R_ij t_ij = OK T_ij /\
    np.transpose R_ij @ t_ij = OK Rt_t /\
    getLocalFrameMatrix (np.transpose R_ij) (neg Rt_t) = OK T_ji /\
    T_ij @ T_ji = OK (np.eye 4).
Proof.
  intros HR Ht Ho.
  destruct (rectangular_3_3 R_ij HR)
    as (r11 & r12 & r13 & r21 & r22 & r23 & r31 & r32 & r33 & ->).
  destruct (rectangular_3_1 t_ij Ht) as (t1 & t2 & t3 & ->).
  cbn in Ho. injection Ho as E11 E12 E13 E21 E22 E23 E31 E32 E33.
  do 3 eexists. repeat (split; [reflexivity |]).
  cbn. repeat f_equal; try nra.
  - by_rows E11 E12 E13 t1 t2 t3 t1.
  - by_rows E21 E22 E23 t1 t2 t3 t2.
  - by_rows E31 E32 E33 t1 t2 t3 t3.
Qed.

Lemma getLocalFrameMatrix_inverse_witness :
  exists T_ij Rt_t T_ji,
    getLocalFrameMatrix [[0; -1; 0]; [1; 0; 0]; [0; 0; 1]] [[3]; [2]; [0]]
    = OK T_ij /\
    np.transpose [[0; -1; 0]; [1; 0; 0]; [0; 0; 1]] @ [[3]; [2]; [0]]
    = OK Rt_t /\
    getLocalFrameMatrix (np.transpose [[0; -1; 0]; [1; 0; 0]; [0; 0; 1]])
                        (neg Rt_t) = OK T_ji /\
    T_ij @ T_ji = OK (np.eye 4).
Proof.
  apply getLocalFrameMatrix_inverse.
  - split; [reflexivity | repeat constructor].
  - split; [reflexivity | repeat constructor].
  - cbn. repeat f_equal; lra.
Defined.

(** ** The chain in closed form *)

Lemma pmul_joint alpha x y beta tx :
  pmul (joint alpha x y) (joint beta tx 0)
  = joint (alpha + beta) (x + tx * cos (radians alpha))
          (y + tx * sin (radians alpha)).
Proof.
  unfold joint, pmul, radians.
  rewrite radians_plus, cos_plus, sin_plus. array_eq.
Qed.

Lemma radians_add a b : radians (a + b) = radians a + radians b.
Proof. apply radians_plus. Qed.


Lemma planar_rigid p : unit_pair p -> rigid (planar p).
Proof.
  destruct p as [[[a b] tx] ty]. cbn [unit_pair]. intros Hu.
  repeat split.
  - cbn. repeat f_equal; nra.
  - unfold np.det3, np.entry. cbn. nra.
Qed.

Lemma frame_origin_planar p :
  frame_origin (planar p) = OK (snd (fst p), snd p).
Proof. unfold frame_origin. rewrite planar_origin. reflexivity. Qed.

(** The run of the solver with the joint angles summed along the chain. *)
Lemma forward_kinematics_sum_run phi0 phi1 phi2 phi3 rest L1 L2 L3 L4 :
  let x2 := 3 + (L1 + 0.8) * cos (radians phi0) in
  let y2 := 2 + (L1 + 0.8) * sin (radians phi0) in
  let x3 := x2 + (L2 + 0.8) * cos (radians (phi0 + phi1)) in
  let y3 := y2 + (L2 + 0.8) * sin (radians (phi0 + phi1)) in
  let x4 := x3 + (L3 + 0.4) * cos (radians (phi0 + phi1 + phi2)) in
  let y4 := y3 + (L3 + 0.4) * sin (radians (phi0 + phi1 + phi2)) in
  forward_kinematics (phi0 :: phi1 :: phi2 :: phi3 :: rest) L1 L2 L3 L4 =
  OK (planar (joint phi0 3 2),
      planar (joint (phi0 + phi1) x2 y2),
      planar (joint (phi0 + phi1 + phi2) x3 y3),
      planar (joint (phi0 + phi1 + phi2 + phi3) x4 y4),
      [x4; y4; 0]).
Proof.
  intros. rewrite forward_kinematics_run. cbv zeta.
  rewrite !pmul_joint. reflexivity.
Qed.

(** X11: the textbook formula of the planar arm.  The end effector is the
    base (3, 2) plus the three link offsets, each turned by the sum of the
    joint angles up to its joint, and the tip frame is turned by the sum of
    all four angles. *)
Theorem forward_kinematics_closed_form
        (phi0 phi1 phi2 phi3 : R) (rest : list R) (L1 L2 L3 L4 : R) :
  exists T_01 T_02 T_03 T_04 e,
    forward_kinematics (phi0 :: phi1 :: phi2 :: phi3 :: rest) L1 L2 L3 L4
    = OK (T_01, T_02, T_03, T_04, e) /\
    e = [3 + (L1 + 0.8) * cos (radians phi0)
           + (L2 + 0.8) * cos (radians (phi0 + phi1))
           + (L3 + 0.4) * cos (radians (phi0 + phi1 + phi2));
         2 + (L1 + 0.8) * sin (radians phi0)
           + (L2 + 0.8) * sin (radians (phi0 + phi1))
           + (L3 + 0.4) * sin (radians (phi0 + phi1 + phi2));
         0] /\
    RotationMatrix (phi0 + phi1 + phi2 + phi3) "z"
    = OK (rotation_part T_04).
Proof.
  do 5 eexists. rewrite forward_kinematics_sum_run.
  repeat split.
Qed.

(** X12: the last joint angle turns the tip frame only.  Changing [Phi[3]],
    the entries after it or [L4] leaves [T_01], [T_02], [T_03] and the
    end-effector position as they were. *)
Theorem forward_kinematics_last_angle
        (phi0 phi1 phi2 phi3 phi3' : R) (rest rest' : list R)
        (L1 L2 L3 L4 L4' : R) :
  exists T_01 T_02 T_03 T_04 T_04' e,
    forward_kinematics (phi0 :: phi1 :: phi2 :: phi3 :: rest) L1 L2 L3 L4
    = OK (T_01, T_02, T_03, T_04, e) /\
    forward_kinematics (phi0 :: phi1 :: phi2 :: phi3' :: rest') L1 L2 L3 L4'
    = OK (T_01, T_02, T_03, T_04', e).
Proof.
  do 6 eexists. rewrite !forward_kinematics_sum_run.
  split; reflexivity.
Qed.

Lemma cos_sin_pair_le x y : cos x * cos y + sin x * sin y <= 1.
Proof.
  pose proof (cos_sin_unit x). pose proof (cos_sin_unit y).
  pose proof (Rle_0_sqr (cos x - cos y)) as Hc.
  pose proof (Rle_0_sqr (sin x - sin y)) as Hs.
  unfold Rsqr in Hc, Hs. nra.
Qed.

(** X13: the arm cannot reach further than its links are long: with
    non-negative link lengths the end effector stays within
    [L1 + L2 + L3 + 2] of the base (3, 2). *)
Theorem forward_kinematics_reach
        (phi0 phi1 phi2 phi3 : R) (rest : list R) (L1 L2 L3 L4 : R) :
  0 <= L1 -> 0 <= L2 -> 0 <= L3 ->
  exists T_01 T_02 T_03 T_04 ex ey ez,
    forward_kinematics (phi0 :: phi1 :: phi2 :: phi3 :: rest) L1 L2 L3 L4
    = OK (T_01, T_02, T_03, T_04, [ex; ey; ez]) /\
    dist2 (ex, ey) (3, 2) <= (L1 + L2 + L3 + 2) * (L1 + L2 + L3 + 2).
Proof.
  intros H1 H2 H3.
  do 7 eexists. rewrite forward_kinematics_sum_run.
  split; [reflexivity |].
  unfold dist2. cbn [fst snd].
  set (t1 := radians phi0). set (t2 := radians (phi0 + phi1)).
  set (t3 := radians (phi0 + phi1 + phi2)).
  pose proof (cos_sin_unit t1) as U1.
  pose proof (cos_sin_unit t2) as U2.
  pose proof (cos_sin_unit t3) as U3.
  pose proof (cos_sin_pair_le t1 t2) as P12.
  pose proof (cos_sin_pair_le t1 t3) as P13.
  pose proof (cos_sin_pair_le t2 t3) as P23.
  set (a := L1 + 0.8). set (b := L2 + 0.8). set (c := L3 + 0.4).
  assert (Ha : 0 <= a) by (unfold a; lra).
  assert (Hb : 0 <= b) by (unfold b; lra).
  assert (Hc : 0 <= c) by (unfold c; lra).
  replace (L1 + L2 + L3 + 2) with (a + b + c) by (unfold a, b, c; lra).
  generalize dependent (cos t1). generalize dependent (sin t1).
  generalize dependent (cos t2). generalize dependent (sin t2).
  generalize dependent (cos t3). generalize dependent (sin t3).
  intros s3 c3 U3 s2 c2 U2 P23 s1 c1 U1 P12 P13.
  assert (Q12 : 0 <= a * b * (1 - (c1 * c2 + s1 * s2))).
  { apply Rmult_le_pos; [apply Rmult_le_pos; assumption | lra]. }
  assert (Q13 : 0 <= a * c * (1 - (c1 * c3 + s1 * s3))).
  { apply Rmult_le_pos; [apply Rmult_le_pos; assumption | lra]. }
  assert (Q23 : 0 <= b * c * (1 - (c2 * c3 + s2 * s3))).
  { apply Rmult_le_pos; [apply Rmult_le_pos; assumption | lra]. }
  assert (A1 : a * a * (c1 * c1 + s1 * s1) = a * a) by (rewrite U1; ring).
  assert (A2 : b * b * (c2 * c2 + s2 * s2) = b * b) by (rewrite U2; ring).
  assert (A3 : c * c * (c3 * c3 + s3 * s3) = c * c) by (rewrite U3; ring).
  apply Rminus_le.
  replace ((3 + a * c1 + b * c2 + c * c3 - 3)
           * (3 + a * c1 + b * c2 + c * c3 - 3)
           + (2 + a * s1 + b * s2 + c * s3 - 2)
             * (2 + a * s1 + b * s2 + c * s3 - 2)
           - (a + b + c) * (a + b + c))
    with (a * a * (c1 * c1 + s1 * s1) - a * a
          + (b * b * (c2 * c2 + s2 * s2) - b * b)
          + (c * c * (c3 * c3 + s3 * s3) - c * c)
          - 2 * (a * b * (1 - (c1 * c2 + s1 * s2)))
          - 2 * (a * c * (1 - (c1 * c3 + s1 * s3)))
          - 2 * (b * c * (1 - (c2 * c3 + s2 * s3)))) by ring.
  lra.
Qed.

Lemma forward_kinematics_reach_witness :
  exists T_01 T_02 T_03 T_04 ex ey ez,
    forward_kinematics [30; -50; -30; 0] 5 8 3 0
    = OK (T_01, T_02, T_03, T_04, [ex; ey; ez]) /\
    dist2 (ex, ey) (3, 2) <= (5 + 8 + 3 + 2) * (5 + 8 + 3 + 2).
Proof.
  apply (forward_kinematics_reach 30 (-50) (-30) 0 [] 5 8 3 0); lra.
Defined.

(** X14: the joint angles never stretch a link.  The first frame sits at
    the base (3, 2), the end effector at the origin of the last frame, and
    consecutive frame origins are [L1 + 0.8], [L2 + 0.8] and [L3 + 0.4]
    apart whatever the angles. *)
Theorem forward_kinematics_link_lengths
        (phi0 phi1 phi2 phi3 : R) (rest : list R) (L1 L2 L3 L4 : R) :
  exists T_01 T_02 T_03 T_04 ex ey ez o2 o3,
    forward_kinematics (phi0 :: phi1 :: phi2 :: phi3 :: rest) L1 L2 L3 L4
    = OK (T_01, T_02, T_03, T_04, [ex; ey; ez]) /\
    frame_origin T_01 = OK (3, 2) /\
    frame_origin T_02 = OK o2 /\
    frame_origin T_03 = OK o3 /\
    frame_origin T_04 = OK (ex, ey) /\
    dist2 o2 (3, 2) = (L1 + 0.8) * (L1 + 0.8) /\
    dist2 o3 o2 = (L2 + 0.8) * (L2 + 0.8) /\
    dist2 (ex, ey) o3 = (L3 + 0.4) * (L3 + 0.4).
Proof.
  do 9 eexists. rewrite forward_kinematics_sum_run, !frame_origin_planar.
  repeat (split; [reflexivity |]).
  unfold dist2, joint. cbn [fst snd].
  pose proof (cos_sin_unit (radians phi0)) as U1.
  pose proof (cos_sin_unit (radians (phi0 + phi1))) as U2.
  pose proof (cos_sin_unit (radians (phi0 + phi1 + phi2))) as U3.
  repeat split.
  - transitivity ((L1 + 0.8) * (L1 + 0.8)
                  * (cos (radians phi0) * cos (radians phi0)
                     + sin (radians phi0) * sin (radians phi0)));
      [ring | rewrite U1; ring].
  - transitivity ((L2 + 0.8) * (L2 + 0.8)
                  * (cos (radians (phi0 + phi1)) * cos (radians (phi0 + phi1))
                     + sin (radians (phi0 + phi1))
                       * sin (radians (phi0 + phi1))));
      [ring | rewrite U2; ring].
  - transitivity ((L3 + 0.4) * (L3 + 0.4)
                  * (cos (radians (phi0 + phi1 + phi2))
                     * cos (radians (phi0 + phi1 + phi2))
                     + sin (radians (phi0 + phi1 + phi2))
                       * sin (radians (phi0 + phi1 + phi2))));
      [ring | rewrite U3; ring].
Qed.


(** X16: every cumulative transform the solver returns is a rigid
    transform: its rotation part is orthonormal with determinant 1 and its
    bottom row is [0, 0, 0, 1]. *)
Theorem forward_kinematics_rigid
        (phi0 phi1 phi2 phi3 : R) (rest : list R) (L1 L2 L3 L4 : R) :
  exists T_01 T_02 T_03 T_04 e,
    forward_kinematics (phi0 :: phi1 :: phi2 :: phi3 :: rest) L1 L2 L3 L4
    = OK (T_01, T_02, T_03, T_04, e) /\
    Forall rigid [T_01; T_02; T_03; T_04].
Proof.
  do 5 eexists. rewrite forward_kinematics_sum_run.
  split; [reflexivity |].
  repeat constructor; apply planar_rigid, joint_unit.
Qed.

(** X17: turning the base joint turns the whole arm about the base: with
    [Phi[0]] increased by [delta] the end effector is its former position
    rotated by [delta] degrees about (3, 2). *)
Theorem forward_kinematics_base_rotation
        (phi0 phi1 phi2 phi3 delta : R) (rest : list R) (L1 L2 L3 L4 : R) :
  exists T_01 T_02 T_03 T_04 ex ey ez T_01' T_02' T_03' T_04' ex' ey' ez',
    forward_kinematics (phi0 :: phi1 :: phi2 :: phi3 :: rest) L1 L2 L3 L4
    = OK (T_01, T_02, T_03, T_04, [ex; ey; ez]) /\
    forward_kinematics (phi0 + delta :: phi1 :: phi2 :: phi3 :: rest)
                       L1 L2 L3 L4
    = OK (T_01', T_02', T_03', T_04', [ex'; ey'; ez']) /\
    ex' - 3 = cos (radians delta) * (ex - 3) - sin (radians delta) * (ey - 2)
    /\
    ey' - 2 = sin (radians delta) * (ex - 3) + cos (radians delta) * (ey - 2)
    /\
    ez' = ez.
Proof.
  do 14 eexists. rewrite !forward_kinematics_sum_run.
  split; [reflexivity | split; [reflexivity |]].
  replace (phi0 + delta + phi1 + phi2) with (phi0 + phi1 + phi2 + delta)
    by ring.
  replace (phi0 + delta + phi1) with (phi0 + phi1 + delta) by ring.
  rewrite (radians_add phi0 delta), (radians_add (phi0 + phi1) delta),
    (radians_add (phi0 + phi1 + phi2) delta).
  rewrite !cos_plus, !sin_plus.
  repeat split; ring.
Qed.

(** X18: [main] runs without an exception and prints the point
    (3 + 2.9 sqrt 3 + 8.8 cos 20 + 3.4 cos 50,
     4.9 - 8.8 sin 20 - 3.4 sin 50, 0), the angles in degrees. *)
Theorem main_value :
  main = OK [3 + 5.8 * (sqrt 3 / 2) + 8.8 * cos (radians 20)
               + 3.4 * cos (radians 50);
             2 + 5.8 * (1 / 2) - 8.8 * sin (radians 20)
               - 3.4 * sin (radians 50);
             0].
Proof.
  rewrite main_run. cbv zeta. rewrite !pmul_joint. cbn [joint fst snd].
  replace (radians 30) with (PI / 6) by (unfold radians; lra).
  replace (radians (30 + -50)) with (- radians 20) by (unfold radians; lra).
  replace (radians (30 + -50 + -30)) with (- radians 50)
    by (unfold radians; lra).
  rewrite !cos_neg, !sin_neg, cos_PI6, sin_PI6.
  apply f_equal. f_equal; [lra | f_equal; lra].
Qed.
